(** * roshambo: the interface header [paper/paper.h]

    The repository consists of one C++ header.  It is embedded here as the
    text of the file, then run through a model of the preprocessor, a lexer
    and a parser for the declaration forms the header uses.  The statements
    below are about the result of that pipeline on the text of the header. *)

#[local] Set Warnings "-register-all".
From Stdlib Require Import String Ascii List ZArith Lia Bool Arith.
Import ListNotations.
Local Open Scope string_scope.

(** ** The text of [src/paper/paper.h] *)

Module Source.

(** The line feed and the double quote, which a string literal cannot hold
    directly. *)
Definition LF : ascii := ascii_of_nat 10.
Definition DQ : ascii := ascii_of_nat 34.
Definition lf : string := String LF EmptyString.
Definition dq : string := String DQ EmptyString.

(** The header, byte for byte: eleven lines ended by a line feed and a
    twelfth, [#endif // PAPER_H], that no line feed ends. *)
Definition paper_h : string :=
  "#ifndef PAPER_H" ++ lf ++
  "#define PAPER_H" ++ lf ++
  lf ++
  "#include <list>" ++ lf ++
  lf ++
  "namespace RDKit {" ++ lf ++
  "    class ROMol;" ++ lf ++
  "}" ++ lf ++
  lf ++
  "extern " ++ dq ++ "C" ++ dq ++
    " float** paper(int gpuID, std::list<RDKit::ROMol*>& molecules);" ++ lf ++
  lf ++
  "#endif // PAPER_H".

(** The files of the repository, by path. *)
Definition repository : list (string * string) :=
  [("paper/paper.h", paper_h)].

(** Splitting a text into lines at every line feed.  [cur] holds the
    characters of the line being read, latest first.  A text that ends in a
    line feed has no further (empty) line after it. *)
Fixpoint split_lines_aux (cur : list ascii) (s : string) : list string :=
  match s with
  | EmptyString =>
      match cur with
      | [] => []
      | _ :: _ => [string_of_list_ascii (rev cur)]
      end
  | String c rest =>
      if Ascii.eqb c LF
      then string_of_list_ascii (rev cur) :: split_lines_aux [] rest
      else split_lines_aux (c :: cur) rest
  end.

Definition split_lines (s : string) : list string := split_lines_aux [] s.

(** The number of line feeds of a text (what [wc -l] reports). *)
Fixpoint count_lf (s : string) : nat :=
  match s with
  | EmptyString => 0
  | String c rest => (if Ascii.eqb c LF then 1 else 0) + count_lf rest
  end.

Definition paper_h_lines : list string := split_lines paper_h.

End Source.

(** ** Lexing one line of C++ *)

Module Lexer.
Import Source.

(** Preprocessing tokens, as far as the header needs them: identifiers and
    keywords, numbers, string literals, punctuators and the text of a [//]
    comment (kept so that the comments of a file can be listed; the
    preprocessor drops it).  The two-character
    punctuators [::] and [&&] are one token each; every other punctuator
    is a single character, so [**] lexes as two [*], as in C++. *)
Inductive token : Type :=
| TId (s : string)
| TNum (s : string)
| TStr (s : string)
| TSym (s : string)
| TComment (s : string).

Definition token_eqb (a b : token) : bool :=
  match a, b with
  | TId x, TId y | TNum x, TNum y | TStr x, TStr y | TSym x, TSym y
  | TComment x, TComment y => String.eqb x y
  | _, _ => false
  end.

Definition in_range (lo hi : nat) (c : ascii) : bool :=
  let n := nat_of_ascii c in ((lo <=? n) && (n <=? hi))%nat.

Definition is_digit (c : ascii) : bool := in_range 48 57 c.

Definition is_space (c : ascii) : bool :=
  let n := nat_of_ascii c in
  ((n =? 32) || (n =? 9) || (n =? 13) || (n =? 10))%nat.

(** Letters, digits and the underscore. *)
Definition is_word_char (c : ascii) : bool :=
  in_range 65 90 c || in_range 97 122 c || is_digit c
  || (nat_of_ascii c =? 95)%nat.

(** The token of a finished word ([w] holds it latest character first): a
    number when it starts with a digit, an identifier otherwise. *)
Definition word_token (w : list ascii) : list token :=
  match rev w with
  | [] => []
  | (c :: _) as l =>
      if is_digit c then [TNum (string_of_list_ascii l)]
      else [TId (string_of_list_ascii l)]
  end.

Inductive mode : Type :=
| MCode (word : list ascii)
| MString (lit : list ascii).

(** The lexer reads the line left to right.  In code it collects the
    current word; a [//] turns the rest of the line into a comment; a double
    quote opens a
    string literal, which must be closed on the same line. *)
Fixpoint lex (m : mode) (cs : list ascii) : option (list token) :=
  match cs with
  | [] =>
      match m with
      | MCode w => Some (word_token w)
      | MString _ => None
      end
  | c :: rest =>
      match m with
      | MString lit =>
          if Ascii.eqb c DQ
          then option_map (cons (TStr (string_of_list_ascii (rev lit))))
                          (lex (MCode []) rest)
          else lex (MString (c :: lit)) rest
      | MCode w =>
          if is_word_char c then lex (MCode (c :: w)) rest
          else
            option_map (app (word_token w))
              (if is_space c then lex (MCode []) rest
               else if Ascii.eqb c DQ then lex (MString []) rest
               else
                 match rest with
                 | c' :: rest' =>
                     if Ascii.eqb c "/" && Ascii.eqb c' "/"
                     then Some [TComment (string_of_list_ascii rest')]
                     else if (Ascii.eqb c ":" && Ascii.eqb c' ":")
                             || (Ascii.eqb c "&" && Ascii.eqb c' "&")
                     then option_map
                            (cons (TSym (String c (String c' EmptyString))))
                            (lex (MCode []) rest')
                     else option_map (cons (TSym (String c EmptyString)))
                                     (lex (MCode []) rest)
                 | [] => Some [TSym (String c EmptyString)]
                 end)
      end
  end.

Definition lex_line (l : string) : option (list token) :=
  lex (MCode []) (list_ascii_of_string l).

Definition is_comment (t : token) : bool :=
  match t with TComment _ => true | _ => false end.

Definition strip_comments (ts : list token) : list token :=
  filter (fun t => negb (is_comment t)) ts.

Definition token_text (t : token) : string :=
  match t with
  | TId s | TNum s | TStr s | TSym s | TComment s => s
  end.

End Lexer.

(** ** The preprocessor *)

Module Preprocessor.
Import Source Lexer.

(** What a line is to the preprocessor.  Object-like macros only; [#if],
    [#else], [#elif] and whatever else the header does not use are
    [PUnsupported], on which the model stops with an error. *)
Inductive directive : Type :=
| PIfndef (m : string)
| PIfdef (m : string)
| PDefine (m : string) (body : list token)
| PUndef (m : string)
| PInclude (system : bool) (file : string)
| PEndif
| PText (ts : list token)
| PUnsupported.

Definition is_sym (s : string) (t : token) : bool := token_eqb t (TSym s).

(** The name between [<] and [>] of a system include. *)
Definition angle_name (args : list token) : option string :=
  match args with
  | t :: rest =>
      if is_sym "<" t then
        match rev rest with
        | t' :: name =>
            if is_sym ">" t'
            then Some (String.concat "" (map token_text (rev name)))
            else None
        | [] => None
        end
      else None
  | [] => None
  end.

Definition classify (ts : list token) : directive :=
  match ts with
  | TSym h :: more =>
      if String.eqb h "#" then
        match more with
        | TId d :: args =>
            if String.eqb d "ifndef" then
              match args with [TId m] => PIfndef m | _ => PUnsupported end
            else if String.eqb d "ifdef" then
              match args with [TId m] => PIfdef m | _ => PUnsupported end
            else if String.eqb d "undef" then
              match args with [TId m] => PUndef m | _ => PUnsupported end
            else if String.eqb d "endif" then
              match args with [] => PEndif | _ => PUnsupported end
            else if String.eqb d "define" then
              match args with
              | TId m :: body =>
                  match body with
                  | t :: _ => if is_sym "(" t then PUnsupported
                              else PDefine m body
                  | [] => PDefine m body
                  end
              | _ => PUnsupported
              end
            else if String.eqb d "include" then
              match args with
              | [TStr f] => PInclude false f
              | _ => match angle_name args with
                     | Some f => PInclude true f
                     | None => PUnsupported
                     end
              end
            else PUnsupported
        | _ => PUnsupported
        end
      else PText ts
  | _ => PText ts
  end.

(** The output of preprocessing: the tokens of the translation unit, and a
    marker for every system header included, whose text is not part of the
    repository. *)
Inductive item : Type :=
| ISystem (file : string)
| ITok (t : token).

Definition macro_table : Type := list (string * list token).

Fixpoint lookup {A : Type} (k : string) (l : list (string * A)) : option A :=
  match l with
  | [] => None
  | (k', v) :: rest => if String.eqb k k' then Some v else lookup k rest
  end.

Definition defined (m : string) (ms : macro_table) : bool :=
  match lookup m ms with Some _ => true | None => false end.

(** Replacement of the identifiers that name a macro by its body. *)
Definition expand (ms : macro_table) (ts : list token) : list token :=
  flat_map (fun t =>
              match t with
              | TId x => match lookup x ms with
                         | Some body => body
                         | None => [t]
                         end
              | _ => [t]
              end) ts.

(** [nest] counts the open conditional groups that are being read, [skip]
    the open groups that are being skipped, the failed one included; the
    preprocessor reads text when [skip] is 0. *)
Record state : Type := mkState {
  macros : macro_table;
  nest : nat;
  skip : nat;
  out : list item
}.

Definition start (ms : macro_table) : state := mkState ms 0 0 [].

Definition set_skip (st : state) (k : nat) : state :=
  mkState (macros st) (nest st) k (out st).
Definition set_nest (st : state) (k : nat) : state :=
  mkState (macros st) k (skip st) (out st).
Definition set_macros (st : state) (ms : macro_table) : state :=
  mkState ms (nest st) (skip st) (out st).
Definition emit (st : state) (its : list item) : state :=
  mkState (macros st) (nest st) (skip st) (out st ++ its).

(** The directive, or text, on a line.  [None] when the line does not
    lex. *)
Definition read_line (l : string) : option directive :=
  option_map (fun ts => classify (strip_comments ts)) (lex_line l).

(** What a line does to the state.  [include_file] is what reading another
    file of the repository does to the state. *)
Definition exec (include_file : state -> list string -> option state)
    (st : state) (d : directive) : option state :=
  match skip st with
  | S k =>
      match d with
      | PIfndef _ | PIfdef _ => Some (set_skip st (S (S k)))
      | PEndif => Some (set_skip st k)
      | PUnsupported => None
      | _ => Some st
      end
  | O =>
      match d with
      | PIfndef m => if defined m (macros st) then Some (set_skip st 1)
                     else Some (set_nest st (S (nest st)))
      | PIfdef m => if defined m (macros st)
                    then Some (set_nest st (S (nest st)))
                    else Some (set_skip st 1)
      | PDefine m body => Some (set_macros st ((m, body) :: macros st))
      | PUndef m =>
          Some (set_macros st
                  (filter (fun e => negb (String.eqb m (fst e)))
                          (macros st)))
      | PInclude true f => Some (emit st [ISystem f])
      | PInclude false f =>
          match lookup f repository with
          | None => None
          | Some text =>
              match include_file st (split_lines text) with
              | Some st' =>
                  if ((nest st' =? nest st) && (skip st' =? 0))%nat
                  then Some st' else None
              | None => None
              end
          end
      | PEndif => match nest st with
                  | O => None
                  | S k => Some (set_nest st k)
                  end
      | PText ts => Some (emit st (map ITok (expand (macros st) ts)))
      | PUnsupported => None
      end
  end.

Definition step (include_file : state -> list string -> option state)
    (st : state) (l : string) : option state :=
  match read_line l with
  | Some d => exec include_file st d
  | None => None
  end.

Definition run_lines (stp : state -> string -> option state) :
    state -> list string -> option state :=
  fix go (st : state) (ls : list string) {struct ls} : option state :=
    match ls with
    | [] => Some st
    | l :: rest => match stp st l with
                   | Some st' => go st' rest
                   | None => None
                   end
    end.

(** Reading the lines of a file, with [depth] levels of nested includes
    allowed below it. *)
Fixpoint run (depth : nat) (st : state) (ls : list string) : option state :=
  run_lines
    (step (match depth with
           | O => fun _ _ => None
           | S d => run d
           end)) st ls.

(** Preprocessing a translation unit given by its lines, from a table of
    predefined macros.  Every conditional must be closed at the end. *)
Definition preprocess (depth : nat) (ms : macro_table) (tu : list string)
    : option (list item) :=
  match run depth (start ms) tu with
  | Some st => if ((nest st =? 0) && (skip st =? 0))%nat
               then Some (out st) else None
  | None => None
  end.

(** The run of a file on the directives already read off its lines. *)
Fixpoint exec_all (inc : state -> list string -> option state)
    (st : state) (ds : list (option directive)) : option state :=
  match ds with
  | [] => Some st
  | Some d :: rest => match exec inc st d with
                      | Some st' => exec_all inc st' rest
                      | None => None
                      end
  | None :: _ => None
  end.

(** The macro that guards the header. *)
Definition guard : string := "PAPER_H".

(** The directives of the header, line by line. *)
Definition header_directives : list (option directive) :=
  map read_line paper_h_lines.


Definition token_ids (ts : list token) : list string :=
  flat_map (fun t => match t with TId x => [x] | _ => [] end) ts.

(** The identifiers (keywords included) in the text lines of a file. *)
Definition identifiers_of (ds : list (option directive)) : list string :=
  flat_map (fun d => match d with
                     | Some (PText ts) => token_ids ts
                     | _ => []
                     end) ds.

Definition header_identifiers : list string :=
  identifiers_of header_directives.

(** No macro of the table is named like the guard or like an identifier
    of the header. *)
Definition clash_free (ms : macro_table) : bool :=
  forallb (fun x => negb (defined x ms)) (guard :: header_identifiers).


(** The include directive that names the header. *)
Definition include_paper_h : string :=
  "#include " ++ dq ++ "paper/paper.h" ++ dq.

End Preprocessor.

(** ** Declarations *)

Module Cxx.
Import Source Lexer Preprocessor.

Inductive builtin : Type :=
| BVoid | BBool | BChar | BShort | BInt | BLong | BFloat | BDouble.

(** Types as the header writes them.  [TNamed q args] is a (qualified)
    class name with its template arguments, [std::list<RDKit::ROMol*>]
    being [TNamed ["std"; "list"] [TPtr (TNamed ["RDKit"; "ROMol"] [])]]. *)
Inductive cty : Type :=
| TBuiltin (b : builtin)
| TNamed (q : list string) (args : list cty)
| TConst (t : cty)
| TPtr (t : cty)
| TRef (t : cty)
| TRvRef (t : cty).

Inductive linkage : Type := LinkCxx | LinkC.

Inductive exception_spec : Type :=
| ExcNoexcept
| ExcThrow (ts : list token).

Record param : Type := mkParam {
  p_type : cty;
  p_name : option string
}.

(** A function declaration; [f_body] is [None] for a prototype and holds
    the tokens between the braces for a definition. *)
Record function : Type := mkFunction {
  f_linkage : linkage;
  f_ret : cty;
  f_name : string;
  f_params : list param;
  f_except : option exception_spec;
  f_body : option (list token)
}.

Inductive class_key : Type := KClass | KStruct.

Inductive decl : Type :=
| DNamespace (name : string) (body : list decl)
| DClassFwd (k : class_key) (name : string)
| DClassDef (k : class_key) (name : string) (members : list token)
| DFunction (f : function)
| DVariable (l : linkage) (t : cty) (name : string).

(** *** Parsing *)

Definition is_id (s : string) (t : token) : bool := token_eqb t (TId s).

Definition eat (t : token) (ts : list token) : option (list token) :=
  match ts with
  | t' :: rest => if token_eqb t t' then Some rest else None
  | [] => None
  end.

Definition builtin_of (s : string) : option builtin :=
  if String.eqb s "void" then Some BVoid
  else if String.eqb s "bool" then Some BBool
  else if String.eqb s "char" then Some BChar
  else if String.eqb s "short" then Some BShort
  else if String.eqb s "int" then Some BInt
  else if String.eqb s "long" then Some BLong
  else if String.eqb s "float" then Some BFloat
  else if String.eqb s "double" then Some BDouble
  else None.

(** Keywords that cannot start a type name here; [unsigned], [signed] and
    the other specifiers the header does not use are refused, not guessed. *)
Definition reserved : list string :=
  ["namespace"; "class"; "struct"; "extern"; "const"; "noexcept"; "throw";
   "unsigned"; "signed"; "static"; "inline"; "virtual"; "template";
   "typename"; "typedef"; "using"; "enum"; "union"; "volatile"; "operator"].

Definition is_reserved (s : string) : bool :=
  existsb (String.eqb s) reserved.

(** The rest of a qualified name: [:: id] repeated. *)
Fixpoint parse_qname_tail (acc : list string) (ts : list token)
    : list string * list token :=
  match ts with
  | TSym s :: TId x :: rest =>
      if String.eqb s "::" && negb (is_reserved x)
      then parse_qname_tail (x :: acc) rest
      else (rev acc, ts)
  | _ => (rev acc, ts)
  end.

(** Declarator operators after the type name: [*], [&], [&&], [const]. *)
Fixpoint parse_suffix (t : cty) (ts : list token) : cty * list token :=
  match ts with
  | TSym s :: rest =>
      if String.eqb s "*" then parse_suffix (TPtr t) rest
      else if String.eqb s "&" then parse_suffix (TRef t) rest
      else if String.eqb s "&&" then parse_suffix (TRvRef t) rest
      else (t, ts)
  | TId s :: rest =>
      if String.eqb s "const" then parse_suffix (TConst t) rest
      else (t, ts)
  | _ => (t, ts)
  end.

Definition opt_const (ts : list token) : bool * list token :=
  match ts with
  | TId s :: rest => if String.eqb s "const" then (true, rest) else (false, ts)
  | _ => (false, ts)
  end.

Fixpoint parse_type (fuel : nat) (ts : list token)
    : option (cty * list token) :=
  match fuel with
  | O => None
  | S fuel' =>
      let (c, ts1) := opt_const ts in
      let qual := fun t => if c then TConst t else t in
      match ts1 with
      | TId x :: r =>
          if is_reserved x then None
          else
            match builtin_of x with
            | Some b => Some (parse_suffix (qual (TBuiltin b)) r)
            | None =>
                let (q, r1) := parse_qname_tail [x] r in
                match eat (TSym "<") r1 with
                | Some r2 =>
                    match parse_targs fuel' r2 with
                    | Some (args, r3) =>
                        Some (parse_suffix (qual (TNamed q args)) r3)
                    | None => None
                    end
                | None => Some (parse_suffix (qual (TNamed q [])) r1)
                end
            end
      | _ => None
      end
  end
with parse_targs (fuel : nat) (ts : list token)
    : option (list cty * list token) :=
  match fuel with
  | O => None
  | S fuel' =>
      match parse_type fuel' ts with
      | Some (t, r) =>
          match eat (TSym ">") r with
          | Some r' => Some ([t], r')
          | None =>
              match eat (TSym ",") r with
              | Some r' =>
                  match parse_targs fuel' r' with
                  | Some (l, r'') => Some (t :: l, r'')
                  | None => None
                  end
              | None => None
              end
          end
      | None => None
      end
  end.

(** The tokens up to the brace that closes the block already entered. *)
Fixpoint take_block (depth : nat) (acc : list token) (ts : list token)
    : option (list token * list token) :=
  match ts with
  | [] => None
  | t :: rest =>
      if is_sym "{" t then take_block (S depth) (t :: acc) rest
      else if is_sym "}" t then
        match depth with
        | O => Some (rev acc, rest)
        | S d => take_block d (t :: acc) rest
        end
      else take_block depth (t :: acc) rest
  end.

(** The tokens up to the parenthesis that closes the one already entered. *)
Fixpoint take_parens (depth : nat) (acc : list token) (ts : list token)
    : option (list token * list token) :=
  match ts with
  | [] => None
  | t :: rest =>
      if is_sym "(" t then take_parens (S depth) (t :: acc) rest
      else if is_sym ")" t then
        match depth with
        | O => Some (rev acc, rest)
        | S d => take_parens d (t :: acc) rest
        end
      else take_parens depth (t :: acc) rest
  end.

(** Parameters, after the opening parenthesis: a type and an optional
    name each, separated by commas. *)
Fixpoint parse_params (fuel : nat) (ts : list token)
    : option (list param * list token) :=
  match fuel with
  | O => None
  | S fuel' =>
      match parse_type fuel' ts with
      | Some (t, r) =>
          let (name, r1) :=
            match r with
            | TId x :: r' => if is_reserved x then (None, r)
                             else (Some x, r')
            | _ => (None, r)
            end in
          match eat (TSym ")") r1 with
          | Some r2 => Some ([mkParam t name], r2)
          | None =>
              match eat (TSym ",") r1 with
              | Some r2 =>
                  match parse_params fuel' r2 with
                  | Some (ps, r3) => Some (mkParam t name :: ps, r3)
                  | None => None
                  end
              | None => None
              end
          end
      | None => None
      end
  end.

Definition parse_param_list (fuel : nat) (ts : list token)
    : option (list param * list token) :=
  match eat (TSym ")") ts with
  | Some r => Some ([], r)
  | None =>
      match ts with
      | [TId v; TSym c] =>
          if String.eqb v "void" && String.eqb c ")" then Some ([], [])
          else parse_params fuel ts
      | TId v :: TSym c :: r =>
          if String.eqb v "void" && String.eqb c ")" then Some ([], r)
          else parse_params fuel ts
      | _ => parse_params fuel ts
      end
  end.

Definition parse_except (ts : list token)
    : option (option exception_spec * list token) :=
  match ts with
  | TId s :: r =>
      if String.eqb s "noexcept" then Some (Some ExcNoexcept, r)
      else if String.eqb s "throw" then
        match eat (TSym "(") r with
        | Some r1 =>
            match take_parens 0 [] r1 with
            | Some (inner, r2) => Some (Some (ExcThrow inner), r2)
            | None => None
            end
        | None => None
        end
      else Some (None, ts)
  | _ => Some (None, ts)
  end.

(** A function or variable declaration: type, name, then either [;] or a
    parameter list, an optional exception specification and [;] or a
    body. *)
Definition parse_simple (fuel : nat) (l : linkage) (ts : list token)
    : option (decl * list token) :=
  match parse_type fuel ts with
  | Some (t, TId name :: r) =>
      if is_reserved name then None
      else
        match eat (TSym ";") r with
        | Some r1 => Some (DVariable l t name, r1)
        | None =>
            match eat (TSym "(") r with
            | Some r1 =>
                match parse_param_list fuel r1 with
                | Some (ps, r2) =>
                    match parse_except r2 with
                    | Some (ex, r3) =>
                        match eat (TSym ";") r3 with
                        | Some r4 =>
                            Some (DFunction (mkFunction l t name ps ex None),
                                  r4)
                        | None =>
                            match eat (TSym "{") r3 with
                            | Some r4 =>
                                match take_block 0 [] r4 with
                                | Some (body, r5) =>
                                    Some (DFunction
                                            (mkFunction l t name ps ex
                                                        (Some body)), r5)
                                | None => None
                                end
                            | None => None
                            end
                        end
                    | None => None
                    end
                | None => None
                end
            | None => None
            end
        end
  | _ => None
  end.

Definition class_key_of (s : string) : option class_key :=
  if String.eqb s "class" then Some KClass
  else if String.eqb s "struct" then Some KStruct
  else None.

Definition linkage_of (s : string) : option linkage :=
  if String.eqb s "C" then Some LinkC
  else if String.eqb s "C++" then Some LinkCxx
  else None.

Definition parse_class (k : class_key) (ts : list token)
    : option (decl * list token) :=
  match ts with
  | TId n :: TSym s :: r =>
      if is_reserved n then None
      else if String.eqb s ";" then Some (DClassFwd k n, r)
      else if String.eqb s "{" then
        match take_block 0 [] r with
        | Some (members, r1) =>
            match eat (TSym ";") r1 with
            | Some r2 => Some (DClassDef k n members, r2)
            | None => None
            end
        | None => None
        end
      else None
  | _ => None
  end.

Fixpoint parse_decl (fuel : nat) (ts : list token)
    : option (decl * list token) :=
  match fuel with
  | O => None
  | S fuel' =>
      match ts with
      | TId w :: r =>
          if String.eqb w "namespace" then
            match r with
            | TId n :: r1 =>
                match eat (TSym "{") r1 with
                | Some r2 =>
                    match parse_decls fuel' r2 with
                    | Some (ds, r3) =>
                        match eat (TSym "}") r3 with
                        | Some r4 => Some (DNamespace n ds, r4)
                        | None => None
                        end
                    | None => None
                    end
                | None => None
                end
            | _ => None
            end
          else if String.eqb w "extern" then
            match r with
            | TStr s :: r1 =>
                match linkage_of s with
                | Some l => parse_simple fuel' l r1
                | None => None
                end
            | _ => parse_simple fuel' LinkCxx r
            end
          else
            match class_key_of w with
            | Some k => parse_class k r
            | None => parse_simple fuel' LinkCxx ts
            end
      | _ => None
      end
  end
with parse_decls (fuel : nat) (ts : list token)
    : option (list decl * list token) :=
  match fuel with
  | O => None
  | S fuel' =>
      match ts with
      | [] => Some ([], [])
      | t :: _ =>
          if is_sym "}" t then Some ([], ts)
          else
            match parse_decl fuel' ts with
            | Some (d, r) =>
                match parse_decls fuel' r with
                | Some (ds, r') => Some (d :: ds, r')
                | None => None
                end
            | None => None
            end
      end
  end.

(** A translation unit after preprocessing: the system headers it pulls
    in, and its declarations. *)
Record tunit : Type := mkUnit {
  includes : list string;
  decls : list decl
}.

Definition system_headers (its : list item) : list string :=
  flat_map (fun i => match i with ISystem f => [f] | ITok _ => [] end) its.

Definition tokens_of (its : list item) : list token :=
  flat_map (fun i => match i with ISystem _ => [] | ITok t => [t] end) its.

Definition parse_unit (its : list item) : option tunit :=
  let ts := tokens_of its in
  match parse_decls (S (S (length ts))) ts with
  | Some (ds, []) => Some (mkUnit (system_headers its) ds)
  | _ => None
  end.

(** The whole front end, on the lines of a translation unit. *)
Definition translate (tu : list string) : option tunit :=
  match preprocess 8 [] tu with
  | Some its => parse_unit its
  | None => None
  end.

End Cxx.

(** ** What a translation unit declares *)

Module Interface.
Import Source Lexer Preprocessor Cxx.

(** The functions of a list of declarations, each with the namespaces
    around it. *)
Fixpoint functions_in (scope : list string) (d : decl)
    : list (list string * function) :=
  match d with
  | DNamespace n body => flat_map (functions_in (scope ++ [n])%list) body
  | DFunction f => [(scope, f)]
  | _ => []
  end.

Fixpoint forward_classes_in (scope : list string) (d : decl)
    : list (list string) :=
  match d with
  | DNamespace n body => flat_map (forward_classes_in (scope ++ [n])%list) body
  | DClassFwd _ n => [(scope ++ [n])%list]
  | _ => []
  end.

Fixpoint class_definitions_in (scope : list string) (d : decl)
    : list (list string) :=
  match d with
  | DNamespace n body =>
      flat_map (class_definitions_in (scope ++ [n])%list) body
  | DClassDef _ n _ => [(scope ++ [n])%list]
  | _ => []
  end.

Fixpoint variables_in (scope : list string) (d : decl)
    : list (list string) :=
  match d with
  | DNamespace n body => flat_map (variables_in (scope ++ [n])%list) body
  | DVariable _ _ n => [(scope ++ [n])%list]
  | _ => []
  end.

Definition functions (u : tunit) : list (list string * function) :=
  flat_map (functions_in []) (decls u).
Definition forward_classes (u : tunit) : list (list string) :=
  flat_map (forward_classes_in []) (decls u).
Definition class_definitions (u : tunit) : list (list string) :=
  flat_map (class_definitions_in []) (decls u).
Definition variables (u : tunit) : list (list string) :=
  flat_map (variables_in []) (decls u).

(** The functions that come with a body. *)
Definition function_definitions (u : tunit) : list (list string * function) :=
  filter (fun sf => match f_body (snd sf) with
                    | Some _ => true
                    | None => false
                    end) (functions u).

(** The name a function has for the linker.  With C linkage it is the
    bare identifier.  With C++ linkage it encodes the enclosing scopes and
    the parameter types as well; the encoding itself depends on the ABI and
    is left as the data it is made from. *)
Inductive symbol : Type :=
| SymC (name : string)
| SymCxx (scope : list string) (name : string) (params : list cty).

Definition symbol_of (sf : list string * function) : symbol :=
  let (scope, f) := sf in
  match f_linkage f with
  | LinkC => SymC (f_name f)
  | LinkCxx => SymCxx scope (f_name f) (map p_type (f_params f))
  end.

Definition exported_symbols (u : tunit) : list symbol :=
  map symbol_of (functions u).

Definition qname_eqb (a b : list string) : bool :=
  if list_eq_dec string_dec a b then true else false.

(** Complete types: the arithmetic types, pointers, the classes the unit
    defines, and the classes of [std], which the system headers define
    whenever the unit includes one.  A class that is only forward-declared
    is incomplete. *)
Fixpoint complete (u : tunit) (t : cty) : bool :=
  match t with
  | TBuiltin BVoid => false
  | TBuiltin _ => true
  | TPtr _ => true
  | TConst t' => complete u t'
  | TRef _ | TRvRef _ => false
  | TNamed q _ =>
      existsb (qname_eqb q) (class_definitions u)
      || match q, includes u with
         | ns :: _ :: _, _ :: _ => String.eqb ns "std"
         | _, _ => false
         end
  end.

(** What client code may do with a type.  Reading or writing the object
    behind a pointer, creating an object and asking for its size need the
    complete type; holding, copying and passing the pointer do not. *)
Inductive use : Type :=
| UAccess (pointee : cty)
| UConstruct (t : cty)
| USizeof (t : cty)
| UHold (pointee : cty).

Definition well_formed (u : tunit) (x : use) : bool :=
  match x with
  | UAccess t | UConstruct t | USizeof t => complete u t
  | UHold _ => true
  end.

(** Integral return types, the shape of a status code. *)
Definition returns_status_code (f : function) : bool :=
  match f_ret f with
  | TBuiltin BBool | TBuiltin BChar | TBuiltin BShort
  | TBuiltin BInt | TBuiltin BLong => true
  | _ => false
  end.

(** Whether the callee can change the caller's object through a
    parameter of this type: only through a reference to non-const. *)
Definition callee_may_write (t : cty) : bool :=
  match t with
  | TRef (TConst _) | TRvRef (TConst _) => false
  | TRef _ | TRvRef _ => true
  | _ => false
  end.

(** Arithmetic objects, and pointers to them ([int], [char*]). *)
Fixpoint scalar_target (t : cty) : bool :=
  match t with
  | TBuiltin BVoid => false
  | TBuiltin _ => true
  | TPtr t' => scalar_target t'
  | _ => false
  end.

(** A parameter whose shape is that of a status report: a reference or a
    pointer through which the callee writes an arithmetic object or a
    pointer to one ([int& status], [int* err], [char** message]). *)
Definition status_out_param (p : param) : bool :=
  match p_type p with
  | TRef t | TRvRef t | TPtr t => scalar_target t
  | _ => false
  end.

(** The comments of a file, line by line. *)
Definition comments_of (text : string) : list string :=
  flat_map (fun l => match lex_line l with
                     | Some ts => map token_text (filter is_comment ts)
                     | None => []
                     end) (split_lines text).

(** The unit of a source file that includes the header and has nothing
    else in it. *)
Definition paper_unit : tunit :=
  match translate [include_paper_h] with
  | Some u => u
  | None => mkUnit [] []
  end.

(** The declaration of [paper], as parsed. *)
Definition paper : function :=
  match functions paper_unit with
  | (_, f) :: _ => f
  | [] => mkFunction LinkCxx (TBuiltin BVoid) "" [] None None
  end.

(** The lines of the header between the guard's [#define] and [#endif]. *)
Definition unguarded : list string :=
  removelast (skipn 2 paper_h_lines).

(** The declaration of [paper] without [extern "C"]. *)
Definition paper_cxx : list string :=
  ["float** paper(int gpuID, std::list<RDKit::ROMol*>& molecules);"].

End Interface.

(** ** Calls through a declaration *)

Module Semantics.
Import Source Lexer Preprocessor Cxx Interface.

(** Addresses index the blocks of the heap; the null pointer is [None]. *)
Definition addr : Type := nat.

(** Values.  A [float] is its 32-bit pattern; no arithmetic is done on
    it.  A [std::list] is the sequence of its elements. *)
Inductive value : Type :=
| VInt (z : Z)
| VFloat (bits : Z)
| VPtr (a : option addr)
| VList (elems : list value).

Inductive storage : Type := Dynamic | Static | Automatic.

Record block : Type := mkBlock {
  b_storage : storage;
  b_cells : list value
}.

Definition heap : Type := list block.

(** The values of a type.  [int] is 32 bits wide.  A pointer type says
    nothing of what is behind the pointer: that is the heap's matter. *)
Fixpoint has_type (t : cty) (v : value) {struct t} : bool :=
  match t, v with
  | TBuiltin BInt, VInt z => ((- 2 ^ 31 <=? z) && (z <? 2 ^ 31))%Z
  | TBuiltin BFloat, VFloat b => ((0 <=? b) && (b <? 2 ^ 32))%Z
  | TPtr _, VPtr _ => true
  | TNamed q [e], VList vs =>
      qname_eqb q ["std"; "list"] && forallb (has_type e) vs
  | TConst t', _ => has_type t' v
  | TRef t', _ => has_type t' v
  | TRvRef t', _ => has_type t' v
  | _, _ => false
  end.

Fixpoint have_types (ps : list param) (vs : list value) : bool :=
  match ps, vs with
  | [], [] => true
  | p :: ps', v :: vs' => has_type (p_type p) v && have_types ps' vs'
  | _, _ => false
  end.

(** What a call does, seen from the callee: it returns a value, leaving
    its parameters and the heap in some state, or it does not return (it
    throws, aborts or runs forever). *)
Inductive outcome : Type :=
| Returned (ret : value) (args : list value) (h : heap)
| NoReturn.

(** A definition of a function, as the meaning of its body. *)
Definition implementation : Type := list value -> heap -> outcome.

(** The caller's objects after the call: what the callee left in a
    parameter reaches the caller only where the parameter's type lets the
    callee write; everywhere else the callee worked on a copy. *)
Fixpoint write_back (ps : list param) (before after : list value)
    : list value :=
  match ps, before, after with
  | p :: ps', b :: bs, a :: afs =>
      (if callee_may_write (p_type p) then a else b)
        :: write_back ps' bs afs
  | _, _, _ => []
  end.

(** A call of [impl] through the declaration [f].  [None] when the
    arguments, or what [impl] hands back, do not have the declared types:
    then the call, or [impl], does not fit the declaration. *)
Definition call (f : function) (impl : implementation)
    (args : list value) (h : heap) : option outcome :=
  if have_types (f_params f) args then
    match impl args h with
    | Returned r args' h' =>
        if has_type (f_ret f) r && have_types (f_params f) args'
        then Some (Returned r (write_back (f_params f) args args') h')
        else None
    | NoReturn => Some NoReturn
    end
  else None.

(** [impl] fits the declaration [f]: every well-typed call is
    well-typed in what it hands back. *)
Definition implements (f : function) (impl : implementation) : Prop :=
  forall args h, have_types (f_params f) args = true ->
                 call f impl args h <> None.

(** *** The heap *)

Definition alloc (h : heap) (cells : list value) : addr * heap :=
  (length h, (h ++ [mkBlock Dynamic cells])%list).

Definition is_dynamic (s : storage) : bool :=
  match s with Dynamic => true | _ => false end.

(** The number of floats in the dynamically allocated array that [v]
    points to, if it points to one. *)
Definition float_row (h : heap) (v : value) : option nat :=
  match v with
  | VPtr (Some a) =>
      match nth_error h a with
      | Some b =>
          if is_dynamic (b_storage b)
             && forallb (has_type (TBuiltin BFloat)) (b_cells b)
          then Some (length (b_cells b))
          else None
      | None => None
      end
  | _ => None
  end.

Fixpoint all_some {A : Type} (l : list (option A)) : option (list A) :=
  match l with
  | [] => Some []
  | Some x :: l' => option_map (cons x) (all_some l')
  | None :: _ => None
  end.

(** The shape of the dynamically allocated two-dimensional array that
    [v] points to: the lengths of its rows, if [v] points to a dynamically
    allocated array of pointers that each point to a dynamically
    allocated array of floats. *)
Definition shape (h : heap) (v : value) : option (list nat) :=
  match v with
  | VPtr (Some a) =>
      match nth_error h a with
      | Some b =>
          if is_dynamic (b_storage b)
          then all_some (map (float_row h) (b_cells b))
          else None
      | None => None
      end
  | _ => None
  end.

Definition is_dynamic_2d (h : heap) (v : value) : bool :=
  match shape h v with Some _ => true | None => false end.

(** The bit patterns of a float. *)
Definition float_bits (b : Z) : bool := has_type (TBuiltin BFloat) (VFloat b).

(** A matrix is rectangular of [rows] by [cols] floats. *)
Definition is_matrix (rows cols : nat) (m : list (list Z)) : bool :=
  (length m =? rows)%nat
  && forallb (fun r => (length r =? cols)%nat && forallb float_bits r) m.

Fixpoint alloc_rows (h : heap) (m : list (list Z))
    : list value * heap :=
  match m with
  | [] => ([], h)
  | r :: m' =>
      let (a, h1) := alloc h (map VFloat r) in
      let (ps, h2) := alloc_rows h1 m' in
      (VPtr (Some a) :: ps, h2)
  end.

(** Allocation of the rows, then of the array of the pointers to them. *)
Definition new_matrix (h : heap) (m : list (list Z)) : value * heap :=
  let (ps, h1) := alloc_rows h m in
  let (a, h2) := alloc h1 ps in
  (VPtr (Some a), h2).

(** Modelled from the spec: the definition of [paper], of which the
    repository has only the declaration.  The spec says of it that it
    takes a GPU device identifier and a list of molecule handles and
    returns a dynamically allocated 2D array of floating-point values, and
    that the dimensions, the allocation strategy and the deallocation
    contract are unspecified; it says nothing of what is computed, of the
    molecule list after the call or of failure.  So: a call either does not
    return, or returns a freshly allocated matrix of any dimensions and
    contents, on top of any heap [h0] the rest of the call leaves, with
    any molecule list [ms']. *)
Inductive paper_spec (gpuID : Z) (molecules : list value) (h : heap)
    : outcome -> Prop :=
| paper_returns (rows cols : nat) (m : list (list Z)) (h0 : heap)
    (ms' : list value) :
    is_matrix rows cols m = true ->
    paper_spec gpuID molecules h
      (Returned (fst (new_matrix h0 m)) [VInt gpuID; VList ms']
                (snd (new_matrix h0 m)))
| paper_does_not_return :
    paper_spec gpuID molecules h NoReturn.

(** The type of the molecule list, behind the reference. *)
Definition molecule_list : cty :=
  TNamed ["std"; "list"] [TPtr (TNamed ["RDKit"; "ROMol"] [])].

(** The implementation that puts [ms'] in place of the molecule list. *)
Definition replace_molecules (ms' : list value) : implementation :=
  fun args h =>
    match args with
    | [g; _] => Returned (VPtr None) [g; VList ms'] h
    | _ => NoReturn
    end.

(** The zero matrix of a given size. *)
Definition zeros (rows cols : nat) : list (list Z) :=
  repeat (repeat 0%Z cols) rows.

End Semantics.

(** * Properties of the header *)

Module Facts.
Import Source Lexer Preprocessor Cxx Interface Semantics.

(** ** The front end on the header *)

Lemma token_eqb_eq (a b : token) : token_eqb a b = true <-> a = b.
Proof.
  destruct a, b; simpl; rewrite ?String.eqb_eq;
    split; try congruence; try discriminate; intros H; inversion H; auto.
Qed.

(** The header goes through the front end, and [paper_unit] is what comes
    out. *)
Lemma translate_paper_h : translate [include_paper_h] = Some paper_unit.
Proof. vm_compute. reflexivity. Qed.

(** Including the header and compiling the header itself are the same. *)
Lemma translate_header_itself : translate paper_h_lines = Some paper_unit.
Proof. vm_compute. reflexivity. Qed.

Lemma paper_unit_decls :
  decls paper_unit =
  [DNamespace "RDKit" [DClassFwd KClass "ROMol"]; DFunction paper].
Proof. vm_compute. reflexivity. Qed.

(** The text has the 180 bytes of the file. *)
Lemma paper_h_bytes : String.length paper_h = 180.
Proof. vm_compute. reflexivity. Qed.

Lemma read_paper_h :
  map read_line paper_h_lines =
  [Some (PIfndef "PAPER_H"); Some (PDefine "PAPER_H" []); Some (PText []);
   Some (PInclude true "list"); Some (PText []);
   Some (PText [TId "namespace"; TId "RDKit"; TSym "{"]);
   Some (PText [TId "class"; TId "ROMol"; TSym ";"]);
   Some (PText [TSym "}"]); Some (PText []);
   Some (PText [TId "extern"; TStr "C"; TId "float"; TSym "*"; TSym "*";
                TId "paper"; TSym "("; TId "int"; TId "gpuID"; TSym ",";
                TId "std"; TSym "::"; TId "list"; TSym "<"; TId "RDKit";
                TSym "::"; TId "ROMol"; TSym "*"; TSym ">"; TSym "&";
                TId "molecules"; TSym ")"; TSym ";"]);
   Some (PText []); Some PEndif].
Proof. vm_compute. reflexivity. Qed.

Lemma read_include_paper_h :
  read_line include_paper_h = Some (PInclude false "paper/paper.h").
Proof. vm_compute. reflexivity. Qed.

(** ** C10 *)

(** C10: the header [src/paper/paper.h] is exactly 12 lines long: eleven
    lines that a line feed ends and the closing [#endif] line. *)
Theorem paper_h_line_count :
  length (split_lines paper_h) = 12 /\
  count_lf paper_h = 11 /\
  nth_error (split_lines paper_h) 11 = Some "#endif // PAPER_H".
Proof. vm_compute. repeat split. Qed.

(** ** C1 *)

(** C1: the only operation the repository declares is the function
    [paper]; it takes exactly two parameters, an [int] (the GPU device
    identifier) and a reference to a [std::list] of pointers to
    [RDKit::ROMol], and its return type is [float**]. *)
Theorem paper_signature :
  map fst repository = ["paper/paper.h"] /\
  translate [include_paper_h] = Some paper_unit /\
  functions paper_unit = [([], paper)] /\
  f_name paper = "paper" /\
  f_params paper =
    [mkParam (TBuiltin BInt) (Some "gpuID");
     mkParam (TRef (TNamed ["std"; "list"]
                           [TPtr (TNamed ["RDKit"; "ROMol"] [])]))
             (Some "molecules")] /\
  length (f_params paper) = 2 /\
  f_ret paper = TPtr (TPtr (TBuiltin BFloat)).
Proof. vm_compute. repeat split. Qed.

(** ** C5 *)

(** C5: [paper] is declared [extern "C"], outside every namespace, so its
    linker symbol is the bare name [paper], with no encoding of scope or
    parameter types. *)
Theorem paper_has_c_linkage :
  f_linkage paper = LinkC /\
  functions paper_unit = [([], paper)] /\
  symbol_of ([], paper) = SymC "paper" /\
  exported_symbols paper_unit = [SymC "paper"].
Proof. vm_compute. repeat split. Qed.

(** ** C6 *)

(** C6: [RDKit::ROMol] is only forward-declared: the unit has no
    definition of it, the type is incomplete, so the object behind a
    molecule handle can be neither accessed nor constructed (nor sized)
    while the handle itself can be held and passed; and the header
    includes [<list>] and nothing else. *)
Theorem romol_is_opaque :
  forward_classes paper_unit = [["RDKit"; "ROMol"]] /\
  class_definitions paper_unit = [] /\
  complete paper_unit (TNamed ["RDKit"; "ROMol"] []) = false /\
  well_formed paper_unit (UAccess (TNamed ["RDKit"; "ROMol"] [])) = false /\
  well_formed paper_unit (UConstruct (TNamed ["RDKit"; "ROMol"] [])) = false /\
  well_formed paper_unit (USizeof (TNamed ["RDKit"; "ROMol"] [])) = false /\
  well_formed paper_unit (UHold (TNamed ["RDKit"; "ROMol"] [])) = true /\
  includes paper_unit = ["list"] /\
  filter (fun d => match d with Some (PInclude _ _) => true | _ => false end)
         (map read_line paper_h_lines) = [Some (PInclude true "list")].
Proof. vm_compute. repeat split. Qed.

(** ** C7 *)

(** C7: the declaration of [paper] is all the repository exposes: one
    file, whose declarations are the forward declaration of
    [RDKit::ROMol] and the prototype of [paper]; one linker symbol; no
    class definition, no variable, no function body. *)
Theorem paper_is_the_whole_surface :
  map fst repository = ["paper/paper.h"] /\
  decls paper_unit =
    [DNamespace "RDKit" [DClassFwd KClass "ROMol"]; DFunction paper] /\
  exported_symbols paper_unit = [SymC "paper"] /\
  map (fun sf => f_name (snd sf)) (functions paper_unit) = ["paper"] /\
  class_definitions paper_unit = [] /\
  variables paper_unit = [] /\
  function_definitions paper_unit = [].
Proof. vm_compute. repeat split. Qed.

(** ** C4 *)

(** C4: the declaration of [paper] has no error channel: the return type
    is a pointer, not a status code; there is no exception specification;
    no parameter reports a status, the only parameter the callee can write
    through being the molecule list itself; and the header documents
    nothing, its one comment being the [PAPER_H] after [#endif]. *)
Theorem paper_declares_no_error_channel :
  returns_status_code paper = false /\
  f_ret paper = TPtr (TPtr (TBuiltin BFloat)) /\
  f_except paper = None /\
  filter status_out_param (f_params paper) = [] /\
  map p_name (filter (fun p => callee_may_write (p_type p))
                     (f_params paper)) = [Some "molecules"] /\
  length (f_params paper) = 2 /\
  comments_of paper_h = [" PAPER_H"].
Proof. vm_compute. repeat split. Qed.

End Facts.

(** * The include guard *)

Module Guard.
Import Source Lexer Preprocessor Cxx Interface Facts.

(** Running the lines of a file is running the directives read off them. *)
Lemma run_lines_exec_all inc ls : forall st,
  run_lines (step inc) st ls = exec_all inc st (map read_line ls).
Proof.
  induction ls as [|l ls IH]; intros st; simpl; [reflexivity|].
  unfold step at 1. destruct (read_line l) as [d|]; [|reflexivity].
  destruct (exec inc st d); [apply IH|reflexivity].
Qed.

Lemma run_unfold depth st ls :
  run depth st ls =
  run_lines (step (match depth with
                   | O => fun _ _ => None
                   | S d => run d
                   end)) st ls.
Proof. destruct depth; reflexivity. Qed.

Lemma run_cons depth st l ls :
  run (S depth) st (l :: ls) =
  match step (run depth) st l with
  | Some st' => run (S depth) st' ls
  | None => None
  end.
Proof. reflexivity. Qed.

(** Stepping through directives from a state whose fields are known. *)
Ltac run_header :=
  repeat (progress (unfold emit, set_nest, set_macros, set_skip;
                    cbn [exec_all exec skip macros nest out])).

(** With the guard macro defined, the lines of the header leave the state
    as it was: the whole file is one skipped group. *)
Lemma header_skipped depth st :
  skip st = 0 -> defined guard (macros st) = true ->
  run depth st paper_h_lines = Some st.
Proof.
  intros Hs Hd. rewrite run_unfold, run_lines_exec_all, read_paper_h.
  destruct st as [ms n k o]; simpl in Hs, Hd; subst k.
  cbn [exec_all exec skip macros nest out set_skip].
  fold guard. rewrite Hd. run_header. reflexivity.
Qed.

(** Without it, they define it, emit the body of the header and close the
    group they opened. *)
Lemma header_read depth st :
  skip st = 0 -> defined guard (macros st) = false ->
  exists body,
    run depth st paper_h_lines =
    Some (mkState ((guard, []) :: macros st) (nest st) 0 (out st ++ body)).
Proof.
  intros Hs Hd. rewrite run_unfold, run_lines_exec_all, read_paper_h.
  destruct st as [ms n k o]; simpl in Hs, Hd; subst k.
  cbn [exec_all exec skip macros nest out set_skip].
  fold guard. rewrite Hd.
  run_header. rewrite <- !app_assoc. eexists. reflexivity.
Qed.

Lemma guard_defined_after ms : defined guard ((guard, []) :: ms) = true.
Proof. reflexivity. Qed.

(** An include of the header, with the guard defined, does nothing. *)
Lemma include_again depth st :
  skip st = 0 -> defined guard (macros st) = true ->
  step (run depth) st include_paper_h = Some st.
Proof.
  intros Hs Hd. unfold step. rewrite read_include_paper_h.
  unfold exec. rewrite Hs.
  change (lookup "paper/paper.h" repository) with (Some paper_h).
  cbv beta iota. fold paper_h_lines. rewrite (header_skipped depth st Hs Hd).
  rewrite Hs, Nat.eqb_refl. reflexivity.
Qed.

(** The first include leaves the guard defined and reads on. *)
Lemma include_first depth st :
  skip st = 0 ->
  exists st', step (run depth) st include_paper_h = Some st' /\
              skip st' = 0 /\ nest st' = nest st /\
              defined guard (macros st') = true.
Proof.
  intros Hs. destruct (defined guard (macros st)) eqn:Hd.
  - exists st. rewrite include_again by assumption. auto.
  - destruct (header_read depth st Hs Hd) as [body Hrun].
    eexists. split.
    + unfold step. rewrite read_include_paper_h. unfold exec. rewrite Hs.
      change (lookup "paper/paper.h" repository) with (Some paper_h).
      cbv beta iota. fold paper_h_lines. rewrite Hrun. cbn [nest skip].
      rewrite Nat.eqb_refl. reflexivity.
    + cbn [skip nest macros]. auto using guard_defined_after.
Qed.

Lemma includes_again depth n : forall st,
  skip st = 0 -> defined guard (macros st) = true ->
  run (S depth) st (repeat include_paper_h n) = Some st.
Proof.
  induction n as [|n IH]; intros st Hs Hd; [reflexivity|].
  cbn [repeat]. rewrite run_cons, include_again by assumption.
  apply IH; assumption.
Qed.

Lemma run_repeat depth n st :
  skip st = 0 ->
  run (S depth) st (repeat include_paper_h (S n)) =
  run (S depth) st [include_paper_h].
Proof.
  intros Hs. destruct (include_first depth st Hs) as (st' & H1 & Hs' & _ & Hd').
  cbn [repeat]. rewrite !run_cons, H1.
  apply (includes_again depth n st' Hs' Hd').
Qed.

(** C9: including the header is idempotent.  For every [n >= 1], every
    table of predefined macros and every include depth, a translation
    unit that includes the header [n] times preprocesses to what one
    include gives, and so declares exactly what one include declares
    (the unit [paper_unit]); once the guard [PAPER_H] is defined an
    include of the header expands to nothing. *)
Theorem include_is_idempotent (n depth : nat) (ms : macro_table) :
  1 <= n ->
  preprocess (S depth) ms (repeat include_paper_h n) =
  preprocess (S depth) ms [include_paper_h] /\
  translate (repeat include_paper_h n) = translate [include_paper_h] /\
  translate (repeat include_paper_h n) = Some paper_unit /\
  preprocess (S depth) ((guard, []) :: ms) (repeat include_paper_h n)
  = Some [].
Proof.
  intros Hn. destruct n as [|n]; [lia|].
  assert (Hpp : forall d m,
             preprocess (S d) m (repeat include_paper_h (S n)) =
             preprocess (S d) m [include_paper_h]).
  { intros d m. unfold preprocess. rewrite run_repeat; reflexivity. }
  assert (Htr : translate (repeat include_paper_h (S n)) =
                translate [include_paper_h]).
  { unfold translate. rewrite Hpp. reflexivity. }
  repeat split.
  - apply Hpp.
  - exact Htr.
  - rewrite Htr. apply translate_paper_h.
  - unfold preprocess. rewrite includes_again; reflexivity.
Qed.

Lemma include_is_idempotent_witness :
  1 <= 3 /\
  (preprocess 1 [] (repeat include_paper_h 3) =
   preprocess 1 [] [include_paper_h] /\
   translate (repeat include_paper_h 3) = translate [include_paper_h] /\
   translate (repeat include_paper_h 3) = Some paper_unit /\
   preprocess 1 [(guard, [])] (repeat include_paper_h 3) = Some []).
Proof.
  split; [lia|]. apply (include_is_idempotent 3 0 []). lia.
Defined.

End Guard.

(** * Calls of [paper] *)

Module Calls.
Import Source Lexer Preprocessor Cxx Interface Semantics Facts.

Lemma paper_params :
  f_params paper =
  [mkParam (TBuiltin BInt) (Some "gpuID");
   mkParam (TRef molecule_list) (Some "molecules")].
Proof. vm_compute. reflexivity. Qed.

Lemma paper_ret : f_ret paper = TPtr (TPtr (TBuiltin BFloat)).
Proof. vm_compute. reflexivity. Qed.

(** ** Framing *)

Lemma write_back_same ps : forall args,
  have_types ps args = true -> write_back ps args args = args.
Proof.
  induction ps as [|p ps IH]; intros [|a args] H; simpl in *;
    try discriminate; try reflexivity.
  apply andb_prop in H as [_ H]. rewrite (IH _ H).
  destruct (callee_may_write (p_type p)); reflexivity.
Qed.

(** Whatever the implementation does, a parameter whose type does not let
    the callee write holds after the call what it held before. *)
Lemma write_back_frame ps : forall before after i p v,
  nth_error ps i = Some p -> callee_may_write (p_type p) = false ->
  nth_error (write_back ps before after) i = Some v ->
  nth_error before i = Some v.
Proof.
  induction ps as [|q ps IH]; intros before after i p v Hp Hw Hv.
  - destruct i; discriminate.
  - destruct before as [|b bs], after as [|a afs]; simpl in Hv;
      try (destruct i; discriminate).
    destruct i as [|i]; simpl in *.
    + inversion Hp; subst q. rewrite Hw in Hv. exact Hv.
    + eapply IH; eassumption.
Qed.

Lemma call_frame f impl args h r args' h' i p v :
  call f impl args h = Some (Returned r args' h') ->
  nth_error (f_params f) i = Some p ->
  callee_may_write (p_type p) = false ->
  nth_error args' i = Some v -> nth_error args i = Some v.
Proof.
  unfold call. intros Hc Hp Hw Hv.
  destruct (have_types (f_params f) args); [|discriminate].
  destruct (impl args h) as [r0 a0 h0|]; [|discriminate].
  destruct (has_type (f_ret f) r0 && have_types (f_params f) a0);
    [|discriminate].
  inversion Hc; subst. eapply write_back_frame; eassumption.
Qed.

(** ** A prototype fixes no result *)

(** Any value of the return type, with any heap, is what some
    implementation of the declaration returns. *)
Lemma any_result_is_implemented f args h r h' :
  have_types (f_params f) args = true ->
  has_type (f_ret f) r = true ->
  exists impl, implements f impl /\
               call f impl args h = Some (Returned r args h').
Proof.
  intros Ha Hr. exists (fun a _ => Returned r a h'). split.
  - intros a0 h0 H0. unfold call. rewrite H0, Hr. simpl. discriminate.
  - unfold call. rewrite Ha, Hr. simpl.
    rewrite (write_back_same _ _ Ha). reflexivity.
Qed.

Lemma no_return_is_implemented f args h :
  have_types (f_params f) args = true ->
  exists impl, implements f impl /\ call f impl args h = Some NoReturn.
Proof.
  intros Ha. exists (fun _ _ => NoReturn). split.
  - intros a0 h0 H0. unfold call. rewrite H0. discriminate.
  - unfold call. rewrite Ha. reflexivity.
Qed.

(** C2: [paper] has no definition in the repository: its declaration
    has no body and the unit defines no function at all.  So the source
    fixes no result: for every well-typed input and every value [r] of the
    return type (with any heap [h']) there is an implementation of the
    declaration that returns [r], and another that does not return. *)
Theorem paper_has_no_definition
    (args : list value) (h : heap) (r : value) (h' : heap) :
  have_types (f_params paper) args = true ->
  has_type (f_ret paper) r = true ->
  f_body paper = None /\
  function_definitions paper_unit = [] /\
  (exists impl, implements paper impl /\
                call paper impl args h = Some (Returned r args h')) /\
  (exists impl, implements paper impl /\
                call paper impl args h = Some NoReturn).
Proof.
  intros Ha Hr. split; [|split; [|split]].
  - vm_compute. reflexivity.
  - vm_compute. reflexivity.
  - apply any_result_is_implemented; assumption.
  - apply no_return_is_implemented; assumption.
Qed.

Lemma paper_has_no_definition_witness :
  have_types (f_params paper) [VInt 0; VList [VPtr (Some 5)]] = true /\
  has_type (f_ret paper) (VPtr None) = true /\
  (f_body paper = None /\
   function_definitions paper_unit = [] /\
   (exists impl, implements paper impl /\
                 call paper impl [VInt 0; VList [VPtr (Some 5)]] []
                 = Some (Returned (VPtr None)
                                  [VInt 0; VList [VPtr (Some 5)]] [])) /\
   (exists impl, implements paper impl /\
                 call paper impl [VInt 0; VList [VPtr (Some 5)]] []
                 = Some NoReturn)).
Proof.
  split; [reflexivity|]. split; [reflexivity|].
  apply (paper_has_no_definition
           [VInt 0; VList [VPtr (Some 5)]] [] (VPtr None) []);
    reflexivity.
Defined.

(** ** The molecule list *)

Lemma replace_molecules_implements ms' :
  has_type (TRef molecule_list) (VList ms') = true ->
  implements paper (replace_molecules ms').
Proof.
  intros Hms args h Ha. unfold call. rewrite Ha.
  rewrite paper_params in Ha |- *. rewrite paper_ret.
  destruct args as [|g [|m [|x args]]]; cbn [have_types p_type] in Ha;
    rewrite ?andb_false_r in Ha; try discriminate.
  apply andb_prop in Ha as [Hg _].
  unfold replace_molecules. cbn [have_types p_type].
  rewrite Hg, Hms. simpl. discriminate.
Qed.

(** C8: [molecules] is a reference to a non-const [std::list], a type
    through which the callee can write; so the declaration promises
    nothing about the caller's list after a call: for any well-typed list
    [ms'] (of another length, in another order, of other elements) there
    is an implementation of the declaration after whose call the caller's
    list is [ms'].  The by-value [gpuID], in contrast, is the same after
    every call of every implementation. *)
Theorem molecules_may_be_mutated
    (g : Z) (ms ms' : list value) (h : heap) :
  has_type (TBuiltin BInt) (VInt g) = true ->
  has_type (TRef molecule_list) (VList ms) = true ->
  has_type (TRef molecule_list) (VList ms') = true ->
  nth_error (f_params paper) 1
    = Some (mkParam (TRef molecule_list) (Some "molecules")) /\
  callee_may_write (TRef molecule_list) = true /\
  (exists impl, implements paper impl /\
                call paper impl [VInt g; VList ms] h
                = Some (Returned (VPtr None) [VInt g; VList ms'] h)) /\
  (forall impl r args' h',
      call paper impl [VInt g; VList ms] h = Some (Returned r args' h') ->
      nth_error args' 0 = Some (VInt g)).
Proof.
  intros Hg Hms Hms'. split; [|split; [|split]].
  - rewrite paper_params. reflexivity.
  - reflexivity.
  - exists (replace_molecules ms'). split.
    + apply replace_molecules_implements; assumption.
    + unfold call. rewrite paper_params, paper_ret.
      unfold replace_molecules. cbn [have_types p_type].
      rewrite Hg, Hms, Hms'. reflexivity.
  - intros impl r args' h' Hc.
    assert (Hlen : exists v w, args' = [v; w]).
    { unfold call in Hc. rewrite paper_params in Hc.
      destruct (have_types _ [VInt g; VList ms]); [|discriminate].
      destruct (impl _ h) as [r0 a0 h0|]; [|discriminate].
      destruct (has_type (f_ret paper) r0 && _) eqn:E; [|discriminate].
      apply andb_prop in E as [_ E].
      destruct a0 as [|v [|w [|x a0]]]; cbn [have_types p_type] in E;
        rewrite ?andb_false_r in E; try discriminate.
      inversion Hc; subst. simpl. eauto. }
    destruct Hlen as (v & w & ->).
    assert (Hv : nth_error [VInt g; VList ms] 0 = Some v).
    { eapply (call_frame paper impl _ h r [v; w] h' 0); try exact Hc.
      - rewrite paper_params. reflexivity.
      - reflexivity.
      - reflexivity. }
    simpl in Hv |- *. congruence.
Qed.

Lemma molecules_may_be_mutated_witness :
  has_type (TBuiltin BInt) (VInt 0) = true /\
  has_type (TRef molecule_list) (VList [VPtr (Some 1); VPtr (Some 2)])
  = true /\
  has_type (TRef molecule_list) (VList [VPtr (Some 2)]) = true /\
  (nth_error (f_params paper) 1
     = Some (mkParam (TRef molecule_list) (Some "molecules")) /\
   callee_may_write (TRef molecule_list) = true /\
   (exists impl,
       implements paper impl /\
       call paper impl [VInt 0; VList [VPtr (Some 1); VPtr (Some 2)]] []
       = Some (Returned (VPtr None) [VInt 0; VList [VPtr (Some 2)]] [])) /\
   (forall impl r args' h',
       call paper impl [VInt 0; VList [VPtr (Some 1); VPtr (Some 2)]] []
       = Some (Returned r args' h') ->
       nth_error args' 0 = Some (VInt 0))).
Proof.
  repeat (split; [reflexivity|]).
  apply (molecules_may_be_mutated
           0 [VPtr (Some 1); VPtr (Some 2)] [VPtr (Some 2)] []);
    reflexivity.
Defined.

End Calls.

(** * The returned array *)

Module Matrix.
Import Source Lexer Preprocessor Cxx Interface Semantics Facts.
Local Open Scope list_scope.

Lemma all_some_map_Some {A : Type} (l : list A) :
  all_some (map Some l) = Some l.
Proof. induction l as [|x l IH]; simpl; [|rewrite IH]; reflexivity. Qed.

Lemma forallb_map_VFloat (r : list Z) :
  forallb (has_type (TBuiltin BFloat)) (map VFloat r) = forallb float_bits r.
Proof.
  induction r as [|b r IH]; [reflexivity|].
  cbn [map forallb]. rewrite IH. reflexivity.
Qed.

(** The block just allocated is found at its address, whatever is
    allocated after it. *)
Lemma nth_error_alloc (h later : heap) (b : block) :
  nth_error (h ++ b :: later) (length h) = Some b.
Proof. rewrite nth_error_app2, Nat.sub_diag by lia. reflexivity. Qed.

Lemma float_row_alloc (h later : heap) (r : list Z) :
  forallb float_bits r = true ->
  float_row (h ++ mkBlock Dynamic (map VFloat r) :: later)
            (VPtr (Some (length h))) = Some (length r).
Proof.
  intros Hr. unfold float_row. rewrite nth_error_alloc.
  cbn [b_storage b_cells is_dynamic andb].
  rewrite forallb_map_VFloat, length_map, Hr. reflexivity.
Qed.

(** [alloc_rows] only adds blocks, and each pointer it hands out leads to
    its row in the final heap and in every heap that extends it. *)
Lemma alloc_rows_rows (m : list (list Z)) : forall h ps h2,
  forallb (forallb float_bits) m = true ->
  alloc_rows h m = (ps, h2) ->
  (exists ext, h2 = h ++ ext) /\
  forall later,
    map (float_row (h2 ++ later)) ps = map Some (map (@length Z) m).
Proof.
  induction m as [|r m IH]; intros h ps h2 Hm Ha.
  - inversion Ha; subst. split; [exists []; symmetry; apply app_nil_r|].
    reflexivity.
  - simpl in Hm. apply andb_prop in Hm as [Hr Hm].
    cbn [alloc_rows alloc] in Ha.
    destruct (alloc_rows _ m) as [ps' h2'] eqn:E.
    inversion Ha; subst ps h2; clear Ha.
    destruct (IH _ _ _ Hm E) as [[ext Hext] Hrows]. subst h2'.
    split.
    + exists (mkBlock Dynamic (map VFloat r) :: ext).
      rewrite <- app_assoc. reflexivity.
    + intros later. cbn [map]. rewrite Hrows. f_equal.
      rewrite <- !app_assoc. cbn [app].
      apply float_row_alloc. exact Hr.
Qed.

Lemma new_matrix_shape (h0 : heap) (m : list (list Z)) :
  forallb (forallb float_bits) m = true ->
  shape (snd (new_matrix h0 m)) (fst (new_matrix h0 m))
  = Some (map (@length Z) m).
Proof.
  intros Hm. unfold new_matrix, alloc.
  destruct (alloc_rows h0 m) as [ps h1] eqn:E. cbn [fst snd].
  destruct (alloc_rows_rows m h0 ps h1 Hm E) as [_ Hrows].
  unfold shape. rewrite nth_error_alloc. cbn [b_storage b_cells is_dynamic].
  rewrite Hrows. apply all_some_map_Some.
Qed.

Lemma is_matrix_rows rows cols m :
  is_matrix rows cols m = true ->
  forallb (forallb float_bits) m = true /\
  map (@length Z) m = repeat cols rows.
Proof.
  unfold is_matrix. intros H. apply andb_prop in H as [Hlen Hall].
  apply Nat.eqb_eq in Hlen. subst rows.
  induction m as [|r m IH]; [split; reflexivity|].
  cbn [forallb] in Hall. apply andb_prop in Hall as [Hr Hall].
  apply andb_prop in Hr as [Hc Hr]. apply Nat.eqb_eq in Hc.
  destruct (IH Hall) as [IH1 IH2]. split.
  - cbn [forallb]. rewrite Hr, IH1. reflexivity.
  - cbn [map length repeat]. rewrite Hc, IH2. reflexivity.
Qed.

Lemma zeros_is_matrix rows cols : is_matrix rows cols (zeros rows cols) = true.
Proof.
  unfold is_matrix, zeros. rewrite repeat_length, Nat.eqb_refl. simpl.
  induction rows as [|n IH]; [reflexivity|].
  cbn [repeat forallb]. rewrite IH, repeat_length, Nat.eqb_refl, andb_true_r.
  cbn [andb]. clear IH. induction cols as [|c IHc]; [reflexivity|].
  cbn [repeat forallb]. rewrite IHc. reflexivity.
Qed.

(** C3: with the definition of [paper] modelled from the spec, every
    call that returns returns a pointer to a dynamically allocated array
    of pointers to dynamically allocated arrays of floats, a value of the
    declared return type [float**].  The declared type alone does not say
    so (the null pointer has it too), and the dimensions are left open:
    for every number of rows and of columns the model has a returning
    call with an array of that size. *)
Theorem paper_returns_dynamic_2d_array
    (gpuID : Z) (ms : list value) (h : heap)
    (r : value) (args' : list value) (h' : heap) :
  paper_spec gpuID ms h (Returned r args' h') ->
  is_dynamic_2d h' r = true /\
  has_type (f_ret paper) r = true /\
  f_ret paper = TPtr (TPtr (TBuiltin BFloat)) /\
  has_type (f_ret paper) (VPtr None) = true /\
  is_dynamic_2d h' (VPtr None) = false /\
  (forall rows cols, exists r2 a2 h2,
      paper_spec gpuID ms h (Returned r2 a2 h2) /\
      shape h2 r2 = Some (repeat cols rows)).
Proof.
  intros Hspec. inversion Hspec as [rows cols m h0 ms' Hm Hr|]; subst.
  destruct (is_matrix_rows _ _ _ Hm) as [Hf _].
  repeat split.
  - unfold is_dynamic_2d. rewrite new_matrix_shape by exact Hf. reflexivity.
  - unfold new_matrix, alloc. destruct (alloc_rows h0 m). reflexivity.
  - intros rows' cols'.
    exists (fst (new_matrix [] (zeros rows' cols'))), [VInt gpuID; VList []],
           (snd (new_matrix [] (zeros rows' cols'))).
    pose proof (zeros_is_matrix rows' cols') as Hz.
    destruct (is_matrix_rows _ _ _ Hz) as [Hzf Hzl]. split.
    + apply (paper_returns gpuID ms h rows' cols' _ [] [] Hz).
    + rewrite new_matrix_shape by exact Hzf. f_equal. exact Hzl.
Qed.

(** A returning call of the model, with a 2 by 2 array. *)
Lemma paper_spec_example :
  paper_spec 0 [] []
    (Returned (fst (new_matrix [] [[0; 1]; [2; 3]]%Z)) [VInt 0; VList []]
              (snd (new_matrix [] [[0; 1]; [2; 3]]%Z))).
Proof.
  apply (paper_returns 0 [] [] 2 2 [[0; 1]; [2; 3]]%Z [] []). reflexivity.
Defined.

Lemma paper_returns_dynamic_2d_array_witness :
  paper_spec 0 [] []
    (Returned (fst (new_matrix [] [[0; 1]; [2; 3]]%Z)) [VInt 0; VList []]
              (snd (new_matrix [] [[0; 1]; [2; 3]]%Z))) /\
  (is_dynamic_2d (snd (new_matrix [] [[0; 1]; [2; 3]]%Z))
                 (fst (new_matrix [] [[0; 1]; [2; 3]]%Z)) = true /\
   has_type (f_ret paper) (fst (new_matrix [] [[0; 1]; [2; 3]]%Z)) = true /\
   f_ret paper = TPtr (TPtr (TBuiltin BFloat)) /\
   has_type (f_ret paper) (VPtr None) = true /\
   is_dynamic_2d (snd (new_matrix [] [[0; 1]; [2; 3]]%Z)) (VPtr None)
   = false /\
   (forall rows cols, exists r2 a2 h2,
       paper_spec 0 [] [] (Returned r2 a2 h2) /\
       shape h2 r2 = Some (repeat cols rows))).
Proof.
  split; [exact paper_spec_example|].
  apply (paper_returns_dynamic_2d_array 0 [] [] _ _ _ paper_spec_example).
Defined.

End Matrix.

(** * The model on other declarations

    The same front end and the same views, on texts that differ from the
    header in the one feature a statement above is about. *)

Module Contrast.
Import Source Lexer Preprocessor Cxx Interface Semantics.

(** Without the guard, reading the text twice declares everything twice. *)
Example unguarded_twice :
  option_map (@length item) (preprocess 0 [] unguarded) = Some 31 /\
  option_map (@length item) (preprocess 0 [] (unguarded ++ unguarded))
  = Some 62.
Proof. vm_compute. split; reflexivity. Qed.

(** With C++ linkage the symbol carries the parameter types. *)
Example cxx_linkage_symbol :
  option_map exported_symbols (translate paper_cxx) =
  Some [SymCxx [] "paper"
               [TBuiltin BInt;
                TRef (TNamed ["std"; "list"]
                             [TPtr (TNamed ["RDKit"; "ROMol"] [])])]].
Proof. vm_compute. reflexivity. Qed.

(** A declaration that does have error channels: a status code, an
    exception specification and a status out-parameter. *)
Example error_channels_are_seen :
  option_map
    (fun u => map (fun sf => (returns_status_code (snd sf),
                              f_except (snd sf),
                              map p_name (filter status_out_param
                                                 (f_params (snd sf)))))
                  (functions u))
    (translate ["int run(int gpuID, int* err) noexcept;"])
  = Some [(true, Some ExcNoexcept, [Some "err"])].
Proof. vm_compute. reflexivity. Qed.

(** A class that is defined is complete, and a function with a body is a
    definition. *)
Example definitions_are_seen :
  option_map
    (fun u => (complete u (TNamed ["RDKit"; "ROMol"] []),
               class_definitions u,
               map (fun sf => f_name (snd sf)) (function_definitions u),
               variables u))
    (translate ["namespace RDKit { class ROMol { int n; }; }";
                "int count; int size() { return count; }"])
  = Some (true, [["RDKit"; "ROMol"]], ["size"], [["count"]]).
Proof. vm_compute. reflexivity. Qed.

(** Through a reference to const the callee cannot write: whatever the
    implementation leaves in the parameter, the caller's list is as it
    was. *)
Example const_reference_is_framed :
  forall impl r args' h',
    call (mkFunction LinkC (TPtr (TPtr (TBuiltin BFloat))) "paper"
            [mkParam (TBuiltin BInt) (Some "gpuID");
             mkParam (TRef (TConst molecule_list)) (Some "molecules")]
            None None)
         impl [VInt 0; VList [VPtr (Some 1)]] []
    = Some (Returned r args' h') ->
    forall v, nth_error args' 1 = Some v -> v = VList [VPtr (Some 1)].
Proof.
  intros impl r args' h' Hc v Hv.
  assert (H : nth_error [VInt 0; VList [VPtr (Some 1)]] 1 = Some v).
  { eapply Calls.call_frame; [exact Hc| | |exact Hv]; reflexivity. }
  simpl in H. congruence.
Qed.

End Contrast.

(** * The header in context *)

Module Hygiene.
Import Source Lexer Preprocessor Cxx Interface Facts Guard.
Local Open Scope list_scope.








(** ** Macros of the includer *)







(** The hypothesis is needed: a macro named like an identifier of the
    header changes what the header declares. *)
Example clash_changes_the_header :
  clash_free [("float", [TId "double"])] = false /\
  preprocess 1 [("float", [TId "double"])] [include_paper_h] <>
  preprocess 1 [] [include_paper_h].
Proof. split; [reflexivity|]. vm_compute. discriminate. Qed.

(** ** Including again later *)








(** The unit of that example does preprocess, and an [#undef] of the
    guard in between does bring the header in twice. *)
Example undef_brings_header_back :
  option_map (@length item)
    (preprocess 1 []
       (include_paper_h :: ["#define N 3"; "int x;"] ++ ["int y;"]))
  = Some 37 /\
  option_map (@length item)
    (preprocess 1 []
       (include_paper_h :: ["#undef PAPER_H"] ++ [include_paper_h]))
  = Some 62.
Proof. vm_compute. split; reflexivity. Qed.

End Hygiene.
